(** * oxrr: opening a URL in an app window of an installed browser

    A shallow embedding of the launcher script, in its two copies: the
    compiled program [src/index.js] and its TypeScript source
    [src/unnamed/part_000].  The two texts have the same functions
    ([which], [detectBrowsers], [launchApp], [start]) and differ only in
    the Linux rows of their two static tables, so the functions are
    written once, over a record of tables, and instantiated twice.

    Strings are sequences of 8-bit characters.  Whatever the script reads
    from its host (the platform tag, the file system, the PATH lookup, the
    argument vector) is a field of [Host]; whatever it does to its host
    (console output, spawned commands, the exit code) is recorded in the
    trace and the completion of a small writer-and-exception monad. *)

From Stdlib Require Import String Ascii List Bool Arith NArith ZArith Lia.
From Stdlib Require Import DecimalString Permutation.
Import ListNotations.
Open Scope string_scope.

(** ** JavaScript string and array primitives used by the script *)

Module Js.

(** [s.startsWith(p)] *)
Definition startsWith (s p : string) : bool := String.prefix p s.

(** [s.includes(needle)]: [needle] occurs somewhere in [s], case-sensitively. *)
Fixpoint includes (s needle : string) : bool :=
  match s with
  | EmptyString => String.prefix needle EmptyString
  | String _ rest => String.prefix needle s || includes rest needle
  end.

(** White space and line terminators removed by [trim], among the 8-bit
    characters: TAB, LF, VT, FF, CR, SPACE and NBSP. *)
Definition isWhiteSpace (c : ascii) : bool :=
  let n := nat_of_ascii c in
  ((9 <=? n)%nat && (n <=? 13)%nat) || (n =? 32)%nat || (n =? 160)%nat.

Fixpoint trimStart (s : string) : string :=
  match s with
  | EmptyString => EmptyString
  | String c rest => if isWhiteSpace c then trimStart rest else s
  end.

Fixpoint trimEnd (s : string) : string :=
  match s with
  | EmptyString => EmptyString
  | String c rest =>
      match trimEnd rest with
      | EmptyString => if isWhiteSpace c then EmptyString else String c EmptyString
      | rest' => String c rest'
      end
  end.

(** [s.trim()] *)
Definition trim (s : string) : string := trimEnd (trimStart s).

(** [xs.join(sep)] on an array of strings. *)
Definition join (sep : string) (xs : list string) : string := String.concat sep xs.

(** A number interpolated into a template literal; the script only
    interpolates non-negative integers. *)
Definition numToString (n : N) : string := NilZero.string_of_uint (N.to_uint n).

(** Truthiness of a value that is a string or [null]/[undefined]. *)
Definition truthyString (v : option string) : bool :=
  match v with
  | Some s => negb (s =? "")
  | None => false
  end.

(** [s || null] for a string [s]. *)
Definition orNull (s : string) : option string :=
  if s =? "" then None else Some s.

(** [xs.push(x)] as a function of the array's contents. *)
Definition push {A : Type} (xs : list A) (x : A) : list A := (xs ++ [x])%list.

End Js.

(** ** Data model *)

(** [interface IBrowser { name: string; cmd: string }] *)
Record IBrowser : Type := mkBrowser { name : string; cmd : string }.

(** The two static tables of a copy of the script: the catalog [BROWSERS]
    (keys [windows], [darwin], [linux]) and the object [preferredBrowsers]
    local to [launchApp] (keys [win32], [darwin], [linux]). *)
Record Tables : Type := mkTables {
  BROWSERS_windows : list IBrowser;
  BROWSERS_darwin : list IBrowser;
  BROWSERS_linux : list IBrowser;
  preferred_win32 : list string;
  preferred_darwin : list string;
  preferred_linux : list string
}.

Definition windows_catalog : list IBrowser :=
  [ mkBrowser "Chrome" "C:\Program Files\Google\Chrome\Application\chrome.exe";
    mkBrowser "Firefox" "C:\Program Files\Mozilla Firefox\firefox.exe";
    mkBrowser "Edge" "C:\Program Files (x86)\Microsoft\Edge\Application\msedge.exe";
    mkBrowser "Brave" "C:\Program Files\BraveSoftware\Brave-Browser\Application\brave.exe";
    mkBrowser "Vivaldi" "C:\Program Files\Vivaldi\Application\vivaldi.exe";
    mkBrowser "Opera" "C:\Program Files\Opera\launcher.exe" ].

Definition darwin_catalog : list IBrowser :=
  [ mkBrowser "Chrome" "/Applications/Google Chrome.app";
    mkBrowser "Safari" "/Applications/Safari.app";
    mkBrowser "Firefox" "/Applications/Firefox.app";
    mkBrowser "Brave" "/Applications/Brave Browser.app";
    mkBrowser "Edge" "/Applications/Microsoft Edge.app";
    mkBrowser "Vivaldi" "/Applications/Vivaldi.app";
    mkBrowser "Opera" "/Applications/Opera.app" ].

(** The tables of [src/index.js] (lines 7-33 and 74-78). *)
Definition index_js : Tables := {|
  BROWSERS_windows := windows_catalog;
  BROWSERS_darwin := darwin_catalog;
  BROWSERS_linux :=
    [ mkBrowser "Chromium" "chromium";
      mkBrowser "Firefox" "firefox";
      mkBrowser "Chrome" "google-chrome";
      mkBrowser "Brave" "brave-browser";
      mkBrowser "Vivaldi" "vivaldi";
      mkBrowser "Opera" "opera" ];
  preferred_win32 := ["Chrome"; "Firefox"; "Edge"; "Brave"; "Vivaldi"; "Opera"];
  preferred_darwin := ["Chrome"; "Safari"; "Firefox"; "Edge"; "Brave"; "Vivaldi"; "Opera"];
  preferred_linux := ["Chromium"; "Firefox"; "Brave"; "Chrome"; "Vivaldi"; "Opera"]
|}.

(** The tables of the TypeScript source [src/unnamed/part_000]
    (lines 12-38 and 97-101). *)
Definition part_000 : Tables := {|
  BROWSERS_windows := windows_catalog;
  BROWSERS_darwin := darwin_catalog;
  BROWSERS_linux :=
    [ mkBrowser "Chromium" "chromium";
      mkBrowser "Chrome" "google-chrome";
      mkBrowser "Firefox" "firefox";
      mkBrowser "Brave" "brave-browser";
      mkBrowser "Vivaldi" "vivaldi";
      mkBrowser "Opera" "opera" ];
  preferred_win32 := ["Chrome"; "Firefox"; "Edge"; "Brave"; "Vivaldi"; "Opera"];
  preferred_darwin := ["Chrome"; "Safari"; "Firefox"; "Edge"; "Brave"; "Vivaldi"; "Opera"];
  preferred_linux := ["Chromium"; "Chrome"; "Firefox"; "Brave"; "Vivaldi"; "Opera"]
|}.

(** ** The host and the effects *)

(** What the script reads from its environment.  [execSync] is [None]
    when the child process fails (non-zero exit status, command missing),
    which is when Node's [execSync] throws; otherwise it is the child's
    standard output. *)
Record Host : Type := mkHost {
  platform : string;
  existsSync : string -> bool;
  execSync : string -> option string;
  argv : list string
}.

(** What the script does to its environment, in program order. *)
Inductive Event : Type :=
| ConsoleLog (line : string)
| ConsoleError (line : string)
| Spawn (command : string).

(** How a computation ends: with a value, with an exception that nobody
    caught, or because [process.exit] ended the process. *)
Inductive Completion (A : Type) : Type :=
| Normal (a : A)
| Throw
| Exit (code : Z).

Arguments Normal {A} a.
Arguments Throw {A}.
Arguments Exit {A} code.

(** A computation: its completion and the events it emitted. *)
Definition M (A : Type) : Type := (Completion A * list Event)%type.

Definition ret {A : Type} (a : A) : M A := (Normal a, []).

Definition bind {A B : Type} (m : M A) (k : A -> M B) : M B :=
  match m with
  | (Normal a, t) => let (r, t') := k a in (r, (t ++ t')%list)
  | (Throw, t) => (Throw, t)
  | (Exit c, t) => (Exit c, t)
  end.

Notation "x <- m ;; k" := (bind m (fun x => k))
  (at level 61, m at next level, right associativity).
Notation "m ;;; k" := (bind m (fun _ => k))
  (at level 61, right associativity).

(** [try { body } catch (error) { handler }] *)
Definition try_catch {A : Type} (body handler : M A) : M A :=
  match body with
  | (Throw, t) => let (r, t') := handler in (r, (t ++ t')%list)
  | done => done
  end.

Definition emit (e : Event) : M unit := (Normal tt, [e]).
Definition console_log (line : string) : M unit := emit (ConsoleLog line).
Definition console_error (line : string) : M unit := emit (ConsoleError line).
(** [exec(command)]: the child is started and not waited for. *)
Definition exec (command : string) : M unit := emit (Spawn command).
(** [process.exit(code)]: nothing after it runs. *)
Definition process_exit {A : Type} (code : Z) : M A := (Exit code, []).

(** [for (let x of xs) { body }], threading the variables the body assigns. *)
Fixpoint for_of {A St : Type} (xs : list A) (body : A -> St -> M St) (s : St) : M St :=
  match xs with
  | [] => ret s
  | x :: rest => s' <- body x s ;; for_of rest body s'
  end.

Definition trace {A : Type} (m : M A) : list Event := snd m.

(** The commands a computation spawned, in order. *)
Fixpoint spawned (t : list Event) : list string :=
  match t with
  | [] => []
  | Spawn c :: rest => c :: spawned rest
  | _ :: rest => spawned rest
  end.

(** ** The script *)

(** The double quote character, and a template-literal fragment of the
    shape quote, interpolated text, quote. *)
Definition dquote_char : ascii := Eval cbv in ascii_of_nat 34.
Definition dquote : string := String dquote_char EmptyString.
Definition quoted (s : string) : string := dquote ++ s ++ dquote.

Section Program.

Variable T : Tables.
Variable h : Host.

(** [execSync(command)] of [child_process]. *)
Definition child_execSync (command : string) : M string :=
  match execSync h command with
  | Some out => ret out
  | None => (Throw, [])
  end.

(** [function which(command)], index.js lines 34-41. *)
Definition which (command : string) : M (option string) :=
  try_catch
    (out <- child_execSync ("which " ++ command) ;;
     let output := Js.orNull (Js.trim out) in
     ret output)
    (ret None).

(** [function detectBrowsers()], index.js lines 42-68.  The result is
    [None] where the function returns [undefined]. *)
Definition detectBrowsers : M (option (list IBrowser)) :=
  let os := platform h in
  let foundBrowsers : list IBrowser := [] in
  if os =? "win32" then
    foundBrowsers <- for_of (BROWSERS_windows T) (fun browser foundBrowsers =>
      if existsSync h (cmd browser)
      then ret (Js.push foundBrowsers browser)
      else ret foundBrowsers) foundBrowsers ;;
    ret (Some foundBrowsers)
  else if os =? "darwin" then
    foundBrowsers <- for_of (BROWSERS_darwin T) (fun browser foundBrowsers =>
      if existsSync h (cmd browser)
      then ret (Js.push foundBrowsers browser)
      else ret foundBrowsers) foundBrowsers ;;
    ret (Some foundBrowsers)
  else if os =? "linux" then
    foundBrowsers <- for_of (BROWSERS_linux T) (fun browser foundBrowsers =>
      found <- which (cmd browser) ;;
      if Js.truthyString found
      then ret (Js.push foundBrowsers browser)
      else ret foundBrowsers) foundBrowsers ;;
    ret (Some foundBrowsers)
  else
    console_log "Unsupported OS" ;;;
    ret None.

(** Line 81: the reassignment of [url]. *)
Definition normalizeUrl (url : string) : string :=
  if Js.startsWith url "http" then url
  else if Js.startsWith url "localhost" then "http://" ++ url
  else "https://" ++ url.

Definition width : N := 960.
Definition height : N := 800.

(** Line 86: [preferredBrowsers[osName] || []].  The platform tag is never
    the name of a property that objects inherit, so only the three keys
    of the object literal are looked up. *)
Definition browsersForOS (os : string) : list string :=
  if os =? "win32" then preferred_win32 T
  else if os =? "darwin" then preferred_darwin T
  else if os =? "linux" then preferred_linux T
  else [].

(** Line 87: the first preferred name that some detected browser has. *)
Definition preferredBrowser (os : string) (detectedBrowsers : list IBrowser) : option string :=
  find (fun name' => existsb (fun b => name b =? name') detectedBrowsers) (browsersForOS os).

(** Lines 88-92: the value of [browserToUse] after the selection. *)
Definition browserToUse (os : string) (detectedBrowsers : list IBrowser) : option IBrowser :=
  match preferredBrowser os detectedBrowsers with
  | Some preferred =>
      if Js.truthyString (Some preferred)
      then find (fun b => name b =? preferred) detectedBrowsers
      else nth_error detectedBrowsers 0
  | None => nth_error detectedBrowsers 0
  end.

(** [function launchApp(url)], index.js lines 69-125. *)
Definition launchApp (url : string) : M unit :=
  let os := platform h in
  detectedBrowsers <- detectBrowsers ;;
  console_log ("Detected OS: " ++ os) ;;;
  console_log ("Detected browsers: " ++
    match detectedBrowsers with
    | Some detected => Js.join ", " (map name detected)
    | None => "None"
    end) ;;;
  let url := normalizeUrl url in
  tryDefaultBrowser <-
    match detectedBrowsers with
    | Some detected =>
        match browserToUse os detected with
        | Some browser =>
            let sizeInfo := "--window-size=" ++ Js.numToString width ++ "," ++ Js.numToString height in
            (if negb (os =? "darwin") then
               if Js.includes (cmd browser) "Firefox" then
                 let sizeInfo := "--width=" ++ Js.numToString width ++ " --height=" ++ Js.numToString height in
                 exec (quoted (cmd browser) ++ " " ++ quoted url ++ " " ++ sizeInfo)
               else
                 exec (quoted (cmd browser) ++ " --app=" ++ quoted url ++ " " ++ sizeInfo
                         ++ " --new-window --user-data-dir=" ++ quoted "/tmp/temp-profile")
             else
               if Js.includes (cmd browser) "Firefox" then
                 let sizeInfo := "--width=" ++ Js.numToString width ++ " --height=" ++ Js.numToString height in
                 exec ("open -na " ++ quoted (cmd browser) ++ " " ++ quoted url ++ " " ++ sizeInfo)
               else
                 exec ("open -na " ++ quoted (cmd browser) ++ " --args --app=" ++ quoted url
                         ++ " --new-window --user-data-dir=" ++ quoted "/tmp/temp-profile")) ;;;
            ret false
        | None => ret true
        end
    | None => ret false
    end ;;
  if (tryDefaultBrowser : bool) then
    if os =? "win32" then exec ("start " ++ quoted "" ++ " " ++ quoted url)
    else if os =? "darwin" then exec ("open " ++ quoted url)
    else if os =? "linux" then exec ("xdg-open " ++ quoted url)
    else console_log "Unsupported OS for launching app!"
  else ret tt.

(** [function start()], index.js lines 126-133.  [args[0]] is undefined
    only when [args] is empty, and then [process.exit] has ended the
    process before the call of [launchApp]. *)
Definition start : M unit :=
  let args := skipn 2 (argv h) in
  (if (length args =? 0)%nat then
     console_error "No URL provided! Usage: npx oxr <url>" ;;;
     process_exit 1
   else ret tt) ;;;
  match nth_error args 0 with
  | Some url => launchApp url
  | None => (Throw, [])
  end.

End Program.

(** ** Example hosts

    [host os paths resolvable args]: a machine of platform [os] on which
    exactly the paths [paths] exist and exactly the commands [resolvable]
    are found on the PATH ([which] prints where, and fails otherwise),
    running the script with the positional arguments [args]. *)
Definition host (os : string) (paths resolvable : list string) (args : list string) : Host := {|
  platform := os;
  existsSync := fun p => existsb (String.eqb p) paths;
  execSync := fun c =>
    if existsb (fun r => c =? "which " ++ r) resolvable
    then Some ("/usr/bin/" ++ substring 6 (String.length c) c ++ String (ascii_of_nat 10) "")
    else None;
  argv := "/usr/bin/node" :: "/usr/lib/node_modules/oxr/dist/index.js" :: args
|}.

(** ** What detection computes *)

(** The catalog [detectBrowsers] walks on a platform, when it has one. *)
Definition catalog (T : Tables) (os : string) : option (list IBrowser) :=
  if os =? "win32" then Some (BROWSERS_windows T)
  else if os =? "darwin" then Some (BROWSERS_darwin T)
  else if os =? "linux" then Some (BROWSERS_linux T)
  else None.

(** The test of the loop body on Linux: the value of [which(command)] is truthy. *)
Definition whichFinds (h : Host) (command : string) : bool :=
  match which h command with
  | (Normal found, _) => Js.truthyString found
  | _ => false
  end.

(** The test of the loop body of [detectBrowsers] on each platform. *)
Definition passesProbe (h : Host) (b : IBrowser) : bool :=
  if platform h =? "linux" then whichFinds h (cmd b) else existsSync h (cmd b).

Definition supported (os : string) : Prop :=
  os = "win32" \/ os = "darwin" \/ os = "linux".

(** ** What launching computes *)

(** The command lines of the two flag styles, outside macOS and through
    the macOS bundle launcher, and the default-browser commands. *)
Definition chromiumStyle (locator url : string) : string :=
  quoted locator ++ " --app=" ++ quoted url
    ++ " --window-size=960,800 --new-window --user-data-dir=" ++ quoted "/tmp/temp-profile".

Definition firefoxStyle (locator url : string) : string :=
  quoted locator ++ " " ++ quoted url ++ " --width=960 --height=800".

Definition macChromiumStyle (locator url : string) : string :=
  "open -na " ++ quoted locator ++ " --args --app=" ++ quoted url
    ++ " --new-window --user-data-dir=" ++ quoted "/tmp/temp-profile".

Definition macFirefoxStyle (locator url : string) : string :=
  "open -na " ++ quoted locator ++ " " ++ quoted url ++ " --width=960 --height=800".

Definition browserCommand (os : string) (b : IBrowser) (url : string) : string :=
  match os =? "darwin", Js.includes (cmd b) "Firefox" with
  | false, true => firefoxStyle (cmd b) url
  | false, false => chromiumStyle (cmd b) url
  | true, true => macFirefoxStyle (cmd b) url
  | true, false => macChromiumStyle (cmd b) url
  end.

Definition defaultCommand (os url : string) : string :=
  if os =? "win32" then "start " ++ quoted "" ++ " " ++ quoted url
  else if os =? "darwin" then "open " ++ quoted url
  else "xdg-open " ++ quoted url.

(** [DetectedBrowsers]: the value [detectBrowsers] returns on a host
    ([None] for [undefined]), and the browser [launchApp] then selects. *)
Definition detected (T : Tables) (h : Host) : option (list IBrowser) :=
  match detectBrowsers T h with
  | (Normal found, _) => found
  | _ => None
  end.

Definition selected (T : Tables) (h : Host) : option IBrowser :=
  match detected T h with
  | Some ds => browserToUse T (platform h) ds
  | None => None
  end.

(** ** Auxiliary notions of the statements *)

(** [mentions n c]: the character [c] occurs in [n]. *)
Fixpoint mentions (n : string) (c : ascii) : bool :=
  match n with
  | EmptyString => false
  | String x rest => Ascii.eqb x c || mentions rest c
  end.

(** The position of the first occurrence of a name in a preference list. *)
Fixpoint indexOf (x : string) (l : list string) : option nat :=
  match l with
  | [] => None
  | y :: rest => if y =? x then Some 0 else option_map S (indexOf x rest)
  end.

(** The two copies agree on a host and a URL: they select the same
    browser and spawn the same commands. *)
Definition copies_agree (h : Host) (url : string) : Prop :=
  selected index_js h = selected part_000 h /\
  spawned (trace (launchApp index_js h url)) = spawned (trace (launchApp part_000 h url)).

(** The condition under which the two copies agree on a Linux host. *)
Definition linux_agreement (h : Host) : Prop :=
  whichFinds h "chromium" = true \/
  whichFinds h "google-chrome" = false \/
  (whichFinds h "firefox" = false /\ whichFinds h "brave-browser" = false).

(** The platform's catalog read in the order of the platform's
    preference list: for each preferred name in turn, the catalog's
    descriptors of that name. *)
Definition byPreference (T : Tables) (os : string) : list IBrowser :=
  match catalog T os with
  | Some cat => flat_map (fun n => filter (fun b => name b =? n) cat) (browsersForOS T os)
  | None => []
  end.

(** Every character of a string is white space. *)
Fixpoint blank (s : string) : bool :=
  match s with
  | EmptyString => true
  | String c rest => Js.isWhiteSpace c && blank rest
  end.

(** * Properties *)

(** ** Running the monad *)

Lemma bind_ret {A B : Type} (a : A) (k : A -> M B) : bind (ret a) k = k a.
Proof. unfold bind, ret. destruct (k a). reflexivity. Qed.

Lemma bind_emit {B : Type} (e : Event) (k : unit -> M B) :
  bind (emit e) k = (fst (k tt), e :: snd (k tt)).
Proof. unfold bind, emit. destruct (k tt). reflexivity. Qed.

Lemma which_run (h : Host) (command : string) :
  which h command =
  ret (match execSync h ("which " ++ command) with
       | Some out => Js.orNull (Js.trim out)
       | None => None
       end).
Proof.
  unfold which, child_execSync.
  destruct (execSync h ("which " ++ command)); reflexivity.
Qed.

Lemma whichFinds_run (h : Host) (command : string) :
  whichFinds h command =
  match execSync h ("which " ++ command) with
  | Some out => negb (Js.trim out =? "")
  | None => false
  end.
Proof.
  unfold whichFinds. rewrite which_run. unfold ret, Js.orNull.
  destruct (execSync h ("which " ++ command)) as [out|]; [|reflexivity].
  destruct (Js.trim out =? "") eqn:E; simpl; [reflexivity|now rewrite E].
Qed.

(** A loop whose body pushes the elements that pass a test, and does
    nothing else, filters. *)
Lemma for_of_push_filter {A : Type} (p : A -> bool) (body : A -> list A -> M (list A)) :
  (forall x acc, body x acc = ret (if p x then Js.push acc x else acc)) ->
  forall xs acc, for_of xs body acc = ret (acc ++ filter p xs)%list.
Proof.
  intros Hbody xs. induction xs as [|x xs IH]; intros acc; simpl.
  - now rewrite app_nil_r.
  - rewrite Hbody, bind_ret, IH. destruct (p x); unfold Js.push; [|reflexivity].
    now rewrite <- app_assoc.
Qed.

Lemma detectBrowsers_run (T : Tables) (h : Host) :
  detectBrowsers T h =
  match catalog T (platform h) with
  | Some cat => ret (Some (filter (passesProbe h) cat))
  | None => (Normal None, [ConsoleLog "Unsupported OS"])
  end.
Proof.
  unfold detectBrowsers, catalog, passesProbe.
  destruct (platform h =? "win32") eqn:Ew.
  { apply String.eqb_eq in Ew. rewrite Ew. simpl.
    rewrite (for_of_push_filter (fun b => existsSync h (cmd b))).
    - now rewrite bind_ret.
    - intros x acc. now destruct (existsSync h (cmd x)). }
  destruct (platform h =? "darwin") eqn:Ed.
  { apply String.eqb_eq in Ed. rewrite Ed. simpl.
    rewrite (for_of_push_filter (fun b => existsSync h (cmd b))).
    - now rewrite bind_ret.
    - intros x acc. now destruct (existsSync h (cmd x)). }
  destruct (platform h =? "linux") eqn:El.
  { rewrite (for_of_push_filter (fun b => whichFinds h (cmd b))).
    - now rewrite bind_ret.
    - intros x acc. unfold whichFinds. rewrite which_run, bind_ret. cbn [ret].
      now destruct (Js.truthyString _). }
  reflexivity.
Qed.

Lemma catalog_supported (T : Tables) (os : string) (cat : list IBrowser) :
  catalog T os = Some cat -> supported os.
Proof.
  unfold catalog, supported.
  destruct (String.eqb_spec os "win32"); [auto|].
  destruct (String.eqb_spec os "darwin"); [auto|].
  destruct (String.eqb_spec os "linux"); [auto|discriminate].
Qed.

Lemma supported_catalog (T : Tables) (os : string) :
  supported os -> exists cat, catalog T os = Some cat.
Proof.
  intros [ -> | [ -> | -> ] ]; eexists; reflexivity.
Qed.

Lemma unsupported_catalog (T : Tables) (os : string) :
  ~ supported os -> catalog T os = None.
Proof.
  intros H. destruct (catalog T os) eqn:E; [|reflexivity].
  now apply catalog_supported in E.
Qed.

Lemma detected_run (T : Tables) (h : Host) :
  detected T h =
  match catalog T (platform h) with
  | Some cat => Some (filter (passesProbe h) cat)
  | None => None
  end.
Proof.
  unfold detected. rewrite detectBrowsers_run.
  now destruct (catalog T (platform h)).
Qed.

Lemma detected_supported (T : Tables) (h : Host) (ds : list IBrowser) :
  detected T h = Some ds -> supported (platform h).
Proof.
  rewrite detected_run. destruct (catalog T (platform h)) eqn:E; [|discriminate].
  intros _. now apply catalog_supported in E.
Qed.

(** The whole behaviour of [launchApp]: where detection returns nothing,
    three log lines and nothing else; where it returns a list, two log
    lines and exactly one spawned command, the selected browser's or, when
    there is none to select, the default one. *)
Lemma launchApp_run (T : Tables) (h : Host) (url : string) :
  launchApp T h url =
  match detected T h with
  | None =>
      (Normal tt,
       [ConsoleLog "Unsupported OS";
        ConsoleLog ("Detected OS: " ++ platform h);
        ConsoleLog "Detected browsers: None"])
  | Some ds =>
      (Normal tt,
       [ConsoleLog ("Detected OS: " ++ platform h);
        ConsoleLog ("Detected browsers: " ++ Js.join ", " (map name ds));
        Spawn (match browserToUse T (platform h) ds with
               | Some b => browserCommand (platform h) b (normalizeUrl url)
               | None => defaultCommand (platform h) (normalizeUrl url)
               end)])
  end.
Proof.
  rewrite detected_run. unfold launchApp. rewrite detectBrowsers_run.
  destruct (catalog T (platform h)) as [cat|] eqn:Ecat.
  - apply catalog_supported in Ecat.
    rewrite bind_ret. unfold console_log. rewrite !bind_emit.
    destruct (browserToUse T (platform h) (filter (passesProbe h) cat)) as [b|].
    + unfold browserCommand.
      destruct (platform h =? "darwin"), (Js.includes (cmd b) "Firefox"); reflexivity.
    + rewrite bind_ret. unfold defaultCommand.
      destruct Ecat as [E|[E|E]]; rewrite E; reflexivity.
  - reflexivity.
Qed.

(** ** Facts about the string primitives *)

Lemma append_assoc (a b c : string) : (a ++ b) ++ c = a ++ b ++ c.
Proof. induction a as [|x a IH]; simpl; [reflexivity|now rewrite IH]. Qed.

(** [startsWith] is the prefix relation. *)
Lemma startsWith_iff (s p : string) :
  Js.startsWith s p = true <-> exists rest, s = p ++ rest.
Proof.
  unfold Js.startsWith. revert s. induction p as [|x p IH]; intros s; simpl.
  - destruct s; split; eauto.
  - destruct s as [|y s]; simpl.
    + split; [discriminate|intros [r Hr]; discriminate].
    + destruct (ascii_dec x y) as [->|Hxy].
      * rewrite IH. split; intros [r Hr]; exists r; congruence.
      * split; [discriminate|intros [r Hr]; congruence].
Qed.

(** [includes] is the substring relation. *)
Lemma includes_iff (s needle : string) :
  Js.includes s needle = true <-> exists before after, s = before ++ needle ++ after.
Proof.
  induction s as [|c s IH]; cbn [Js.includes].
  - change (String.prefix needle "") with (Js.startsWith "" needle).
    rewrite startsWith_iff. split.
    + intros [r Hr]. exists "", r. exact Hr.
    + intros [[|x a] [b Hb]]; [eauto|discriminate].
  - change (String.prefix needle (String c s)) with (Js.startsWith (String c s) needle).
    rewrite orb_true_iff, startsWith_iff, IH. split.
    + intros [[r Hr]|[a [b Hab]]].
      * exists "", r. exact Hr.
      * exists (String c a), b. simpl. now rewrite Hab.
    + intros [[|x a] [b Hb]]; simpl in Hb.
      * left. eauto.
      * right. exists a, b. congruence.
Qed.

Lemma prefix_app_sep (n u : string) (c : ascii) (s : string) :
  mentions n c = false -> String.prefix n (u ++ String c s) = String.prefix n u.
Proof.
  revert u. induction n as [|x n IH]; intros u H.
  - now destruct u.
  - simpl in H. apply orb_false_iff in H as [Hx Hn].
    destruct u as [|a u]; simpl.
    + destruct (ascii_dec x c) as [->|]; [|reflexivity].
      now rewrite Ascii.eqb_refl in Hx.
    + destruct (ascii_dec x a); [now apply IH|reflexivity].
Qed.

(** An occurrence of [n] cannot straddle a character that [n] lacks. *)
Lemma includes_app_sep (n u : string) (c : ascii) (s : string) :
  mentions n c = false ->
  Js.includes (u ++ String c s) n = Js.includes u n || Js.includes (String c s) n.
Proof.
  intros H. induction u as [|a u IH].
  - destruct n; reflexivity.
  - change (String a u ++ String c s) with (String a (u ++ String c s)).
    cbn [Js.includes]. rewrite IH.
    change (String a (u ++ String c s)) with (String a u ++ String c s).
    rewrite prefix_app_sep by exact H. now rewrite orb_assoc.
Qed.

(** ** Detection *)

Lemma passesProbe_files (h : Host) (b : IBrowser) :
  platform h <> "linux" -> passesProbe h b = existsSync h (cmd b).
Proof.
  intros H. unfold passesProbe. now apply String.eqb_neq in H as ->.
Qed.

Lemma passesProbe_path (h : Host) (b : IBrowser) :
  platform h = "linux" ->
  passesProbe h b =
  match execSync h ("which " ++ cmd b) with
  | Some out => negb (Js.trim out =? "")
  | None => false
  end.
Proof.
  intros H. unfold passesProbe. rewrite H. simpl. apply whichFinds_run.
Qed.

(** C9. On a supported platform [detectBrowsers] completes normally,
    logging nothing, with exactly the descriptors of the platform's
    catalog that pass the platform's probe, in catalog order: the result
    is the catalog filtered by the probe, so a descriptor is in it iff it
    is in the catalog and passes.  The probe is the existence of the
    locator as a path on win32 and darwin, and on linux that [which]
    returns a truthy value, which it does when the lookup succeeds with a
    non-blank output; a lookup that fails makes [which] return [null]
    normally, so the descriptor is absent and nothing is raised. *)
Theorem detectBrowsers_exact (T : Tables) (h : Host) :
  supported (platform h) ->
  exists cat,
    catalog T (platform h) = Some cat /\
    detectBrowsers T h = (Normal (Some (filter (passesProbe h) cat)), []) /\
    (forall b, In b (filter (passesProbe h) cat) <-> In b cat /\ passesProbe h b = true) /\
    (forall b, platform h <> "linux" -> passesProbe h b = existsSync h (cmd b)) /\
    (forall b, platform h = "linux" ->
       passesProbe h b = whichFinds h (cmd b) /\
       whichFinds h (cmd b) =
         match execSync h ("which " ++ cmd b) with
         | Some out => negb (Js.trim out =? "")
         | None => false
         end) /\
    (forall b, platform h = "linux" -> execSync h ("which " ++ cmd b) = None ->
       which h (cmd b) = (Normal None, []) /\ passesProbe h b = false).
Proof.
  intros Hos. destruct (supported_catalog T _ Hos) as [cat Hcat].
  exists cat. split; [exact Hcat|]. split.
  { rewrite detectBrowsers_run, Hcat. reflexivity. }
  split; [intros b; apply filter_In|].
  split; [intros b; apply passesProbe_files|].
  split.
  - intros b Hl. split; [|apply whichFinds_run].
    unfold passesProbe. now rewrite Hl.
  - intros b Hl Hfail. split.
    + rewrite which_run, Hfail. reflexivity.
    + rewrite passesProbe_path, Hfail by exact Hl. reflexivity.
Qed.

(** C9 on a Linux host where only firefox resolves. *)
Lemma detectBrowsers_exact_linux_firefox :
  exists cat,
    catalog index_js "linux" = Some cat /\
    detectBrowsers index_js (host "linux" [] ["firefox"] []) =
      (Normal (Some [mkBrowser "Firefox" "firefox"]), []).
Proof.
  destruct (detectBrowsers_exact index_js (host "linux" [] ["firefox"] []))
    as [cat [Hcat [Hrun _]]].
  - right; right; reflexivity.
  - exists cat. split; [exact Hcat|].
    rewrite Hrun. injection Hcat as <-. reflexivity.
Defined.

(** ** Launching *)

Lemma spawned_launchApp (T : Tables) (h : Host) (url : string) (ds : list IBrowser) :
  detected T h = Some ds ->
  spawned (trace (launchApp T h url)) =
  [match browserToUse T (platform h) ds with
   | Some b => browserCommand (platform h) b (normalizeUrl url)
   | None => defaultCommand (platform h) (normalizeUrl url)
   end].
Proof.
  intros H. rewrite launchApp_run, H. reflexivity.
Qed.

(** The message of the last branch of the default-browser dispatch is
    logged on no host: the dispatch runs only after detection returned a
    list, which it does only on the three platforms the dispatch handles
    first. *)
Lemma fallback_log_unreachable (T : Tables) (h : Host) (url : string) :
  In (ConsoleLog "Unsupported OS for launching app!") (trace (launchApp T h url)) -> False.
Proof.
  rewrite launchApp_run. destruct (detected T h); simpl;
    intuition discriminate.
Qed.

(** C1. On a platform outside win32, darwin and linux, [launchApp] logs
    the detector's message and the two report lines and ends: the line
    of the default-browser dispatch is not logged (the dispatch is not
    entered), and nothing is spawned. *)
Theorem launchApp_unsupported_os (T : Tables) (h : Host) (url : string) :
  ~ supported (platform h) ->
  launchApp T h url =
    (Normal tt,
     [ConsoleLog "Unsupported OS";
      ConsoleLog ("Detected OS: " ++ platform h);
      ConsoleLog "Detected browsers: None"]) /\
  ~ In (ConsoleLog "Unsupported OS for launching app!") (trace (launchApp T h url)) /\
  spawned (trace (launchApp T h url)) = [].
Proof.
  intros Hos. split; [|split].
  - rewrite launchApp_run, detected_run, unsupported_catalog by exact Hos. reflexivity.
  - intros H. exact (fallback_log_unreachable _ _ _ H).
  - rewrite launchApp_run, detected_run, unsupported_catalog by exact Hos. reflexivity.
Qed.

(** C1 on a FreeBSD host. *)
Lemma launchApp_unsupported_os_freebsd :
  launchApp index_js (host "freebsd" [] [] ["example.com"]) "example.com" =
    (Normal tt,
     [ConsoleLog "Unsupported OS";
      ConsoleLog "Detected OS: freebsd";
      ConsoleLog "Detected browsers: None"]).
Proof.
  apply (launchApp_unsupported_os index_js (host "freebsd" [] [] ["example.com"]) "example.com").
  unfold supported. simpl. intros [H|[H|H]]; discriminate H.
Defined.

(** C4. When detection returns the empty list, which it can only on a
    supported platform, [launchApp] spawns exactly one command, the
    platform's default-browser command on the normalized URL, and no
    browser command. *)
Theorem launchApp_nothing_detected (T : Tables) (h : Host) (url : string) :
  detected T h = Some [] ->
  supported (platform h) /\
  browserToUse T (platform h) [] = None /\
  (platform h = "win32" ->
     spawned (trace (launchApp T h url)) =
       ["start " ++ quoted "" ++ " " ++ quoted (normalizeUrl url)]) /\
  (platform h = "darwin" ->
     spawned (trace (launchApp T h url)) = ["open " ++ quoted (normalizeUrl url)]) /\
  (platform h = "linux" ->
     spawned (trace (launchApp T h url)) = ["xdg-open " ++ quoted (normalizeUrl url)]).
Proof.
  intros H. pose proof (detected_supported _ _ _ H) as Hos.
  assert (Hsel : browserToUse T (platform h) [] = None).
  { unfold browserToUse, preferredBrowser.
    destruct (find _ _) as [p|] eqn:E; [|reflexivity].
    apply find_some in E as [_ E]. discriminate E. }
  split; [exact Hos|]. split; [exact Hsel|].
  rewrite (spawned_launchApp _ _ _ _ H), Hsel.
  repeat split; intros E; rewrite E; reflexivity.
Qed.

(** C4 on a Linux host with no browser on the PATH. *)
Lemma launchApp_nothing_detected_linux :
  spawned (trace (launchApp index_js (host "linux" [] [] ["example.com"]) "example.com")) =
    ["xdg-open " ++ quoted "https://example.com"].
Proof.
  apply (launchApp_nothing_detected index_js (host "linux" [] [] ["example.com"]) "example.com");
    reflexivity.
Defined.

(** C6. The URL [launchApp] passes on is its argument unchanged when the
    argument begins with the four characters http, the argument after
    http:// when it does not but begins with localhost, and the argument
    after https:// otherwise; every command [launchApp] spawns is built
    from that URL. *)
Theorem normalizeUrl_by_prefix (url : string) :
  ((exists rest, url = "http" ++ rest) -> normalizeUrl url = url) /\
  (~ (exists rest, url = "http" ++ rest) ->
   (exists rest, url = "localhost" ++ rest) -> normalizeUrl url = "http://" ++ url) /\
  (~ (exists rest, url = "http" ++ rest) ->
   ~ (exists rest, url = "localhost" ++ rest) -> normalizeUrl url = "https://" ++ url) /\
  normalizeUrl "httpfoo.com" = "httpfoo.com" /\
  normalizeUrl "example.com" = "https://example.com" /\
  normalizeUrl "localhost:3000" = "http://localhost:3000" /\
  normalizeUrl "http://foo" = "http://foo" /\
  normalizeUrl "https://foo" = "https://foo" /\
  (forall T h ds, detected T h = Some ds ->
     spawned (trace (launchApp T h url)) =
     [match browserToUse T (platform h) ds with
      | Some b => browserCommand (platform h) b (normalizeUrl url)
      | None => defaultCommand (platform h) (normalizeUrl url)
      end]).
Proof.
  unfold normalizeUrl at 1 2 3.
  rewrite <- !startsWith_iff.
  destruct (Js.startsWith url "http"), (Js.startsWith url "localhost");
    repeat split; try reflexivity; try congruence;
    intros; apply spawned_launchApp; assumption.
Qed.

(** C10. Run with no positional argument, [start] writes its usage line,
    which contains No URL provided, to the error stream and exits with
    code 1; nothing is logged, detected or spawned. *)
Theorem start_without_url (T : Tables) (h : Host) :
  skipn 2 (argv h) = [] ->
  start T h = (Exit 1, [ConsoleError "No URL provided! Usage: npx oxr <url>"]) /\
  Js.includes "No URL provided! Usage: npx oxr <url>" "No URL provided" = true /\
  spawned (trace (start T h)) = [].
Proof.
  intros H. unfold start. rewrite H. repeat split.
Qed.

(** C10 on a Linux host with browsers installed. *)
Lemma start_without_url_linux :
  start index_js (host "linux" [] ["firefox"; "chromium"] []) =
    (Exit 1, [ConsoleError "No URL provided! Usage: npx oxr <url>"]).
Proof.
  apply (start_without_url index_js (host "linux" [] ["firefox"; "chromium"] [])).
  reflexivity.
Defined.

(** ** Selection *)

Lemma indexOf_In (x : string) (l : list string) :
  In x l <-> exists i, indexOf x l = Some i.
Proof.
  induction l as [|y l IH]; simpl.
  - split; [easy|intros [i Hi]; discriminate].
  - destruct (String.eqb_spec y x) as [->|Hyx].
    + split; eauto.
    + rewrite IH. split.
      * intros [Hy|[i Hi]]; [contradiction|]. exists (S i). now rewrite Hi.
      * intros [i Hi]. right.
        destruct (indexOf x l) as [j|]; [eauto|discriminate].
Qed.

Lemma find_all_false {A : Type} (f : A -> bool) (l : list A) :
  (forall x, In x l -> f x = false) -> find f l = None.
Proof.
  induction l as [|y l IH]; intros H; simpl; [reflexivity|].
  rewrite (H y) by now left. apply IH. intros x Hx. apply H. now right.
Qed.

Lemma find_pointwise {A : Type} (f g : A -> bool) (l : list A) :
  (forall x, f x = g x) -> find f l = find g l.
Proof.
  intros H. induction l as [|y l IH]; simpl; [reflexivity|].
  now rewrite H, IH.
Qed.

(** [find] returns the first element that passes: no passing element
    stands before it. *)
Lemma find_first (f : string -> bool) (l : list string) (x : string) (ix : nat) :
  indexOf x l = Some ix -> f x = true ->
  exists p ip, find f l = Some p /\ indexOf p l = Some ip /\ ip <= ix /\ f p = true.
Proof.
  revert ix. induction l as [|y l IH]; intros ix Hix Hfx; simpl in *; [discriminate|].
  destruct (f y) eqn:Hfy.
  - exists y, 0. rewrite String.eqb_refl. repeat split; [lia|exact Hfy].
  - destruct (String.eqb_spec y x) as [->|Hyx]; [congruence|].
    destruct (indexOf x l) as [j|] eqn:Hj; [|discriminate].
    injection Hix as <-.
    destruct (IH j eq_refl Hfx) as [p [ip [Hp [Hip [Hle Hfp]]]]].
    exists p, (S ip). rewrite Hp, Hip.
    destruct (String.eqb_spec y p) as [->|_]; [congruence|].
    repeat split; [lia|exact Hfp].
Qed.

Lemma existsb_Permutation {A : Type} (f : A -> bool) (l l' : list A) :
  Permutation l l' -> existsb f l = existsb f l'.
Proof.
  intros HP. apply eq_true_iff_eq. rewrite !existsb_exists.
  split; intros [x [Hx Hfx]]; exists x; split; try exact Hfx.
  - now apply (Permutation_in _ HP).
  - now apply (Permutation_in _ (Permutation_sym HP)).
Qed.

Section Selection.

Variable T : Tables.
Variable os : string.

(** The preferred name depends on which browsers were detected, not on
    the order in which they were. *)
Lemma preferredBrowser_Permutation (ds ds' : list IBrowser) :
  Permutation ds ds' -> preferredBrowser T os ds' = preferredBrowser T os ds.
Proof.
  intros HP. unfold preferredBrowser. apply find_pointwise.
  intros n. symmetry. now apply existsb_Permutation.
Qed.

Lemma preferredBrowser_None (ds : list IBrowser) :
  (forall b, In b ds -> ~ In (name b) (browsersForOS T os)) ->
  preferredBrowser T os ds = None.
Proof.
  intros H. unfold preferredBrowser. apply find_all_false.
  intros n Hn. destruct (existsb _ ds) eqn:E; [|reflexivity].
  apply existsb_exists in E as [b [Hb Hname]].
  apply String.eqb_eq in Hname. subst n. now apply H in Hb.
Qed.

Lemma browserToUse_In (ds : list IBrowser) (b : IBrowser) :
  browserToUse T os ds = Some b -> In b ds.
Proof.
  unfold browserToUse.
  destruct (preferredBrowser T os ds) as [p|];
    [destruct (Js.truthyString (Some p))|]; intros H.
  - now apply find_some in H.
  - now apply nth_error_In in H.
  - now apply nth_error_In in H.
Qed.

(** Among detected browsers with preferred names, a browser of the
    earliest preferred name is selected. *)
Lemma browserToUse_earliest (ds : list IBrowser) (a : IBrowser) (ia : nat) :
  ~ In "" (browsersForOS T os) ->
  In a ds -> indexOf (name a) (browsersForOS T os) = Some ia ->
  exists s i,
    browserToUse T os ds = Some s /\ In s ds /\
    preferredBrowser T os ds = Some (name s) /\
    indexOf (name s) (browsersForOS T os) = Some i /\ i <= ia.
Proof.
  intros Hne Ha Hia.
  destruct (find_first (fun n => existsb (fun b => name b =? n) ds) _ _ _ Hia)
    as [p [ip [Hp [Hip [Hle Hfp]]]]].
  { apply existsb_exists. exists a. split; [exact Ha|apply String.eqb_refl]. }
  unfold browserToUse. fold (preferredBrowser T os ds) in Hp. rewrite Hp.
  assert (Hp_ne : p <> "").
  { intros ->. apply Hne. apply indexOf_In. eauto. }
  unfold Js.truthyString. apply String.eqb_neq in Hp_ne as ->. simpl.
  apply existsb_exists in Hfp as [b [Hb Hname]].
  destruct (find (fun b0 => name b0 =? p) ds) as [s|] eqn:Hs.
  - apply find_some in Hs as [Hin Hs]. apply String.eqb_eq in Hs. subst p.
    exists s, ip. auto.
  - apply find_none with (x := b) in Hs; [congruence|exact Hb].
Qed.

End Selection.

Lemma index_js_names_nonempty (os : string) : ~ In "" (browsersForOS index_js os).
Proof.
  unfold browsersForOS.
  destruct (os =? "win32"); [|destruct (os =? "darwin"); [|destruct (os =? "linux")]];
    simpl; intuition discriminate.
Qed.

Lemma part_000_names_nonempty (os : string) : ~ In "" (browsersForOS part_000 os).
Proof.
  unfold browsersForOS.
  destruct (os =? "win32"); [|destruct (os =? "darwin"); [|destruct (os =? "linux")]];
    simpl; intuition discriminate.
Qed.

Lemma precedence_general (T : Tables) (os : string) (ds : list IBrowser)
    (a b : IBrowser) (ia ib : nat) :
  ~ In "" (browsersForOS T os) ->
  In a ds -> In b ds ->
  indexOf (name a) (browsersForOS T os) = Some ia ->
  indexOf (name b) (browsersForOS T os) = Some ib ->
  ia < ib ->
  (browserToUse T os [a; b] = Some a /\ browserToUse T os [b; a] = Some a) /\
  exists s i,
    browserToUse T os ds = Some s /\ In s ds /\
    indexOf (name s) (browsersForOS T os) = Some i /\ i <= ia /\
    name s <> name b /\
    forall ds', Permutation ds ds' ->
      exists s', browserToUse T os ds' = Some s' /\ In s' ds' /\ name s' = name s.
Proof.
  intros Hne Ha Hb Hia Hib Hlt.
  assert (Hpair : forall l, In a l -> (forall x, In x l -> x = a \/ x = b) ->
                            browserToUse T os l = Some a).
  { intros l Hal Hl.
    destruct (browserToUse_earliest T os l a ia Hne Hal Hia) as [s [i [Hs [Hin [_ [Hi Hle]]]]]].
    destruct (Hl s Hin) as [->| ->]; [exact Hs|].
    rewrite Hib in Hi. injection Hi as <-. lia. }
  split.
  { split; apply Hpair; simpl; intuition auto. }
  destruct (browserToUse_earliest T os ds a ia Hne Ha Hia) as [s [i [Hs [Hin [Hpref [Hi Hle]]]]]].
  exists s, i. repeat split; try assumption.
  - intros E. rewrite E, Hib in Hi. injection Hi as <-. lia.
  - intros ds' HP.
    destruct (browserToUse_earliest T os ds' a ia Hne (Permutation_in _ HP Ha) Hia)
      as [s' [i' [Hs' [Hin' [Hpref' _]]]]].
    exists s'. repeat split; try assumption.
    rewrite (preferredBrowser_Permutation T os ds ds' HP), Hpref in Hpref'.
    congruence.
Qed.

(** C5. Of two detected browsers whose names are both in the platform's
    preference list, the one named later is never selected while the
    other is detected: the selected browser's name stands no later in
    the list than the earlier of the two names.  Detection order has no
    part in it: every reordering of the detected list selects a browser
    of the same name, and when the two are all that was detected the
    earlier-named one is selected whichever was detected first. *)
Theorem preference_precedence (os : string) (ds : list IBrowser)
    (a b : IBrowser) (ia ib : nat) :
  In a ds -> In b ds ->
  indexOf (name a) (browsersForOS index_js os) = Some ia ->
  indexOf (name b) (browsersForOS index_js os) = Some ib ->
  ia < ib ->
  (browserToUse index_js os [a; b] = Some a /\ browserToUse index_js os [b; a] = Some a) /\
  exists s i,
    browserToUse index_js os ds = Some s /\ In s ds /\
    indexOf (name s) (browsersForOS index_js os) = Some i /\ i <= ia /\
    name s <> name b /\
    forall ds', Permutation ds ds' ->
      exists s', browserToUse index_js os ds' = Some s' /\ In s' ds' /\ name s' = name s.
Proof.
  apply precedence_general, index_js_names_nonempty.
Qed.

(** C5 on Linux with Chrome detected before Firefox: Firefox is selected. *)
Lemma preference_precedence_linux :
  browserToUse index_js "linux"
    [mkBrowser "Firefox" "firefox"; mkBrowser "Chrome" "google-chrome"] =
    Some (mkBrowser "Firefox" "firefox") /\
  browserToUse index_js "linux"
    [mkBrowser "Chrome" "google-chrome"; mkBrowser "Firefox" "firefox"] =
    Some (mkBrowser "Firefox" "firefox").
Proof.
  apply (preference_precedence "linux"
           [mkBrowser "Chrome" "google-chrome"; mkBrowser "Firefox" "firefox"]
           (mkBrowser "Firefox" "firefox") (mkBrowser "Chrome" "google-chrome") 1 3);
    simpl; auto.
Defined.

(** X11. The TypeScript source keeps the same precedence with its own
    preference lists: of two detected browsers whose names are both in
    the platform's list, the selected browser's name stands no later in
    that list than the earlier of the two, so the later-named one is not
    selected. *)
Lemma preference_precedence_source (os : string) (ds : list IBrowser)
    (a b : IBrowser) (ia ib : nat) :
  In a ds -> In b ds ->
  indexOf (name a) (browsersForOS part_000 os) = Some ia ->
  indexOf (name b) (browsersForOS part_000 os) = Some ib ->
  ia < ib ->
  exists s i,
    browserToUse part_000 os ds = Some s /\ In s ds /\
    indexOf (name s) (browsersForOS part_000 os) = Some i /\ i <= ia /\
    name s <> name b.
Proof.
  intros Ha Hb Hia Hib Hlt.
  destruct (precedence_general part_000 os ds a b ia ib
              (part_000_names_nonempty os) Ha Hb Hia Hib Hlt)
    as [_ [s [i [H1 [H2 [H3 [H4 [H5 _]]]]]]]].
  exists s, i. auto.
Qed.

(** C7. When the detected list is not empty and no detected browser's
    name is in the platform's preference list, the first detected
    browser is selected, and its command is the one [launchApp] spawns. *)
Theorem fallback_first_detected (T : Tables) (os : string)
    (d : IBrowser) (rest : list IBrowser) :
  (forall b, In b (d :: rest) -> ~ In (name b) (browsersForOS T os)) ->
  preferredBrowser T os (d :: rest) = None /\
  browserToUse T os (d :: rest) = Some d /\
  (forall h url, platform h = os -> detected T h = Some (d :: rest) ->
     spawned (trace (launchApp T h url)) = [browserCommand os d (normalizeUrl url)]).
Proof.
  intros H. pose proof (preferredBrowser_None T os _ H) as Hnone.
  assert (Hsel : browserToUse T os (d :: rest) = Some d).
  { unfold browserToUse. now rewrite Hnone. }
  repeat split; try assumption.
  intros h url <- Hd. now rewrite (spawned_launchApp _ _ _ _ Hd), Hsel.
Qed.

(** C7 on Linux with two browsers the preference list does not name. *)
Lemma fallback_first_detected_linux :
  browserToUse index_js "linux"
    [mkBrowser "Epiphany" "epiphany"; mkBrowser "Konqueror" "konqueror"] =
    Some (mkBrowser "Epiphany" "epiphany").
Proof.
  apply (fallback_first_detected index_js "linux"
           (mkBrowser "Epiphany" "epiphany") [mkBrowser "Konqueror" "konqueror"]).
  simpl. intros b [<-|[<-|[]]]; simpl; intuition discriminate.
Defined.

(** With the script's own tables the fallback of C7 is never reached from
    detection: every catalog name is in the platform's preference list. *)
Lemma catalog_names_preferred (T : Tables) (os : string) (cat : list IBrowser) (b : IBrowser) :
  T = index_js \/ T = part_000 ->
  catalog T os = Some cat -> In b cat -> In (name b) (browsersForOS T os).
Proof.
  unfold catalog, browsersForOS. intros [-> | ->];
    (destruct (os =? "win32"); [|destruct (os =? "darwin"); [|destruct (os =? "linux")]]);
    intros E; try discriminate E; injection E as <-; simpl;
    intros H; repeat (destruct H as [<-|H]; [simpl; tauto|]); destruct H.
Qed.

(** ** Command shapes *)

Lemma chromiumStyle_shape (locator url : string) :
  chromiumStyle locator url =
  (quoted locator ++ " --app=" ++ dquote) ++ url ++
  String dquote_char
    (" --window-size=960,800 --new-window --user-data-dir=" ++ quoted "/tmp/temp-profile").
Proof.
  unfold chromiumStyle, quoted. rewrite !append_assoc. reflexivity.
Qed.

Lemma firefoxStyle_shape (locator url : string) :
  firefoxStyle locator url =
  (quoted locator ++ " " ++ dquote) ++ url ++ String dquote_char " --width=960 --height=800".
Proof.
  unfold firefoxStyle, quoted. rewrite !append_assoc. reflexivity.
Qed.

(** The flags every Chromium-style command carries. *)
Lemma chromiumStyle_flags (locator url : string) :
  Js.includes (chromiumStyle locator url) ("--app=" ++ quoted url) = true /\
  Js.includes (chromiumStyle locator url) "--window-size=960,800" = true /\
  Js.includes (chromiumStyle locator url) "--new-window" = true /\
  Js.includes (chromiumStyle locator url) ("--user-data-dir=" ++ quoted "/tmp/temp-profile") = true.
Proof.
  repeat split; apply includes_iff.
  - exists (quoted locator ++ " "),
      (" --window-size=960,800 --new-window --user-data-dir=" ++ quoted "/tmp/temp-profile").
    unfold chromiumStyle. rewrite !append_assoc. reflexivity.
  - exists (quoted locator ++ " --app=" ++ quoted url ++ " "),
      (" --new-window --user-data-dir=" ++ quoted "/tmp/temp-profile").
    unfold chromiumStyle. rewrite !append_assoc. reflexivity.
  - exists (quoted locator ++ " --app=" ++ quoted url ++ " --window-size=960,800 "),
      (" --user-data-dir=" ++ quoted "/tmp/temp-profile").
    unfold chromiumStyle. rewrite !append_assoc. reflexivity.
  - exists (quoted locator ++ " --app=" ++ quoted url
              ++ " --window-size=960,800 --new-window "), "".
    unfold chromiumStyle. rewrite !append_assoc. reflexivity.
Qed.

Lemma firefoxStyle_flags (locator url : string) :
  Js.includes (firefoxStyle locator url) "--width=960 --height=800" = true.
Proof.
  apply includes_iff. exists (quoted locator ++ " " ++ quoted url ++ " "), "".
  unfold firefoxStyle. rewrite !append_assoc. reflexivity.
Qed.

(** A browser [launchApp] selects is a descriptor of the platform's catalog. *)
Lemma selected_in_catalog (T : Tables) (h : Host) (b : IBrowser) :
  selected T h = Some b ->
  exists cat ds,
    catalog T (platform h) = Some cat /\ detected T h = Some ds /\
    browserToUse T (platform h) ds = Some b /\ In b cat /\ passesProbe h b = true.
Proof.
  unfold selected. destruct (detected T h) as [ds|] eqn:Hd; [|discriminate].
  intros Hsel. pose proof Hd as Hd'. rewrite detected_run in Hd'.
  destruct (catalog T (platform h)) as [cat|]; [|discriminate].
  injection Hd' as <-. exists cat, (filter (passesProbe h) cat).
  apply browserToUse_In in Hsel as Hin. apply filter_In in Hin as [Hin Hp].
  repeat split; auto.
Qed.

(** C3. On Linux the Firefox descriptor has the locator firefox, in lower
    case, which does not include the text Firefox; so when Firefox is the
    selected browser the one command spawned is the Chromium-style one,
    with its four flags, and not the width-and-height one: the two
    commands differ, and the flags of the second occur in the first only
    if they occur in the URL. *)
Theorem linux_firefox_chromium_style (h : Host) (url : string) (b : IBrowser) :
  platform h = "linux" -> selected index_js h = Some b -> name b = "Firefox" ->
  cmd b = "firefox" /\
  Js.includes (cmd b) "Firefox" = false /\
  spawned (trace (launchApp index_js h url)) = [chromiumStyle "firefox" (normalizeUrl url)] /\
  (Js.includes (chromiumStyle "firefox" (normalizeUrl url))
     ("--app=" ++ quoted (normalizeUrl url)) = true /\
   Js.includes (chromiumStyle "firefox" (normalizeUrl url)) "--window-size=960,800" = true /\
   Js.includes (chromiumStyle "firefox" (normalizeUrl url)) "--new-window" = true /\
   Js.includes (chromiumStyle "firefox" (normalizeUrl url))
     ("--user-data-dir=" ++ quoted "/tmp/temp-profile") = true) /\
  chromiumStyle "firefox" (normalizeUrl url) <> firefoxStyle "firefox" (normalizeUrl url) /\
  (Js.includes (normalizeUrl url) "--width=" = false ->
   Js.includes (chromiumStyle "firefox" (normalizeUrl url)) "--width=" = false) /\
  (Js.includes (normalizeUrl url) "--height=" = false ->
   Js.includes (chromiumStyle "firefox" (normalizeUrl url)) "--height=" = false).
Proof.
  intros Hos Hsel Hname.
  destruct (selected_in_catalog _ _ _ Hsel) as [cat [ds [Hcat [Hd [Hb [Hin _]]]]]].
  rewrite Hos in Hcat, Hb. injection Hcat as <-.
  assert (Hff : b = mkBrowser "Firefox" "firefox").
  { simpl in Hin.
    repeat (destruct Hin as [<-|Hin]; [first [reflexivity|discriminate Hname]|]).
    destruct Hin. }
  subst b. split; [reflexivity|]. split; [reflexivity|]. split.
  { rewrite (spawned_launchApp _ _ _ _ Hd), Hos, Hb. reflexivity. }
  split; [apply chromiumStyle_flags|]. split.
  { unfold chromiumStyle, firefoxStyle, quoted. simpl. discriminate. }
  split; intros Hurl; rewrite chromiumStyle_shape; simpl;
    rewrite includes_app_sep by reflexivity; rewrite Hurl; reflexivity.
Qed.

(** C3 on a Linux host where only firefox resolves. *)
Lemma linux_firefox_chromium_style_only_firefox :
  spawned (trace (launchApp index_js (host "linux" [] ["firefox"] ["example.com"]) "example.com")) =
    [chromiumStyle "firefox" "https://example.com"].
Proof.
  apply (linux_firefox_chromium_style (host "linux" [] ["firefox"] ["example.com"])
           "example.com" (mkBrowser "Firefox" "firefox")); reflexivity.
Defined.

(** C8. On Windows, when the selected browser is the one named Firefox
    the one command spawned is the width-and-height one, which carries
    --width=960 --height=800 and has no --app= unless the URL has one;
    when it is any other browser the command is the Chromium-style one,
    which carries --app= with the quoted URL and the user-data-dir flag.
    Both are built from the locator and the URL alone, the size in them
    being the constants 960 and 800. *)
Theorem windows_command_shape (h : Host) (url : string) (b : IBrowser) :
  platform h = "win32" -> selected index_js h = Some b ->
  (name b = "Firefox" ->
     spawned (trace (launchApp index_js h url)) = [firefoxStyle (cmd b) (normalizeUrl url)] /\
     Js.includes (firefoxStyle (cmd b) (normalizeUrl url)) "--width=960 --height=800" = true /\
     (Js.includes (normalizeUrl url) "--app=" = false ->
      Js.includes (firefoxStyle (cmd b) (normalizeUrl url)) "--app=" = false)) /\
  (name b <> "Firefox" ->
     spawned (trace (launchApp index_js h url)) = [chromiumStyle (cmd b) (normalizeUrl url)] /\
     Js.includes (chromiumStyle (cmd b) (normalizeUrl url))
       ("--app=" ++ quoted (normalizeUrl url)) = true /\
     Js.includes (chromiumStyle (cmd b) (normalizeUrl url))
       ("--user-data-dir=" ++ quoted "/tmp/temp-profile") = true) /\
  Js.numToString width = "960" /\ Js.numToString height = "800".
Proof.
  intros Hos Hsel.
  destruct (selected_in_catalog _ _ _ Hsel) as [cat [ds [Hcat [Hd [Hb [Hin _]]]]]].
  rewrite Hos in Hcat, Hb. injection Hcat as <-.
  pose proof (spawned_launchApp index_js h url ds Hd) as Hrun.
  rewrite Hos, Hb in Hrun. rewrite Hrun. clear Hrun Hsel Hb Hd.
  split; [|split; [|split; reflexivity]].
  - intros Hname.
    assert (Hff : b = mkBrowser "Firefox" "C:\Program Files\Mozilla Firefox\firefox.exe").
    { simpl in Hin.
      repeat (destruct Hin as [<-|Hin]; [first [reflexivity|discriminate Hname]|]).
      destruct Hin. }
    subst b. split; [reflexivity|]. split; [apply firefoxStyle_flags|].
    intros Hurl. rewrite firefoxStyle_shape. simpl.
    rewrite includes_app_sep by reflexivity. rewrite Hurl. reflexivity.
  - intros Hname. split.
    + simpl in Hin.
      repeat (destruct Hin as [<-|Hin]; [first [reflexivity|now contradiction Hname]|]).
      destruct Hin.
    + split; apply chromiumStyle_flags.
Qed.

(** C8 on a Windows host where only Firefox is installed. *)
Lemma windows_command_shape_only_firefox :
  spawned (trace (launchApp index_js
                    (host "win32" ["C:\Program Files\Mozilla Firefox\firefox.exe"] []
                          ["example.com"])
                    "example.com")) =
    [firefoxStyle "C:\Program Files\Mozilla Firefox\firefox.exe" "https://example.com"].
Proof.
  apply (windows_command_shape
           (host "win32" ["C:\Program Files\Mozilla Firefox\firefox.exe"] [] ["example.com"])
           "example.com"
           (mkBrowser "Firefox" "C:\Program Files\Mozilla Firefox\firefox.exe"));
    reflexivity.
Defined.

(** ** The compiled program against its source *)

Lemma tables_agree_off_linux (os : string) :
  os <> "linux" ->
  catalog index_js os = catalog part_000 os /\
  browsersForOS index_js os = browsersForOS part_000 os.
Proof.
  intros H. unfold catalog, browsersForOS.
  apply String.eqb_neq in H. rewrite H.
  destruct (os =? "win32"); [|destruct (os =? "darwin")]; split; reflexivity.
Qed.

Lemma browserToUse_off_linux (os : string) (ds : list IBrowser) :
  os <> "linux" -> browserToUse index_js os ds = browserToUse part_000 os ds.
Proof.
  intros H. unfold browserToUse, preferredBrowser.
  now rewrite (proj2 (tables_agree_off_linux os H)).
Qed.

Lemma detected_linux (T : Tables) (h : Host) :
  platform h = "linux" ->
  detected T h = Some (filter (fun b => whichFinds h (cmd b)) (BROWSERS_linux T)).
Proof.
  intros H. rewrite detected_run, H. simpl. f_equal.
  apply filter_ext. intros b. unfold passesProbe. now rewrite H.
Qed.

(** C2, as stated, fails: on a Linux host where firefox and google-chrome
    resolve and chromium does not, the compiled program selects Firefox
    and its source selects Chrome, and they spawn different commands. *)
Lemma copies_disagree_linux :
  let h := host "linux" [] ["firefox"; "google-chrome"] ["example.com"] in
  selected index_js h = Some (mkBrowser "Firefox" "firefox") /\
  selected part_000 h = Some (mkBrowser "Chrome" "google-chrome") /\
  spawned (trace (launchApp index_js h "example.com")) =
    [chromiumStyle "firefox" "https://example.com"] /\
  spawned (trace (launchApp part_000 h "example.com")) =
    [chromiumStyle "google-chrome" "https://example.com"] /\
  (copies_agree h "example.com" -> False).
Proof.
  repeat split. intros [H _]. discriminate H.
Qed.

(** C2, amended. Off Linux the two copies run identically, whatever the
    host. On Linux they select the same browser, and spawn the same
    command, exactly when chromium resolves, or google-chrome does not,
    or neither firefox nor brave-browser does: in the remaining case the
    compiled program selects Firefox or Brave where its source selects
    Chrome. *)
Theorem copies_agree_iff (h : Host) (url : string) :
  (platform h <> "linux" ->
     launchApp index_js h url = launchApp part_000 h url /\ copies_agree h url) /\
  (platform h = "linux" ->
     (selected index_js h = selected part_000 h <-> linux_agreement h) /\
     (spawned (trace (launchApp index_js h url)) =
      spawned (trace (launchApp part_000 h url)) <-> linux_agreement h) /\
     (copies_agree h url <-> linux_agreement h)).
Proof.
  split.
  - intros Hos.
    assert (Hd : detected index_js h = detected part_000 h).
    { rewrite !detected_run. now rewrite (proj1 (tables_agree_off_linux _ Hos)). }
    assert (Hrun : launchApp index_js h url = launchApp part_000 h url).
    { rewrite !launchApp_run, Hd. destruct (detected part_000 h); [|reflexivity].
      now rewrite browserToUse_off_linux. }
    split; [exact Hrun|]. unfold copies_agree, selected. rewrite Hrun, Hd.
    destruct (detected part_000 h); [|now split].
    now rewrite browserToUse_off_linux.
  - intros Hos.
    enough (Hboth :
      (selected index_js h = selected part_000 h <-> linux_agreement h) /\
      (spawned (trace (launchApp index_js h url)) =
       spawned (trace (launchApp part_000 h url)) <-> linux_agreement h)).
    { unfold copies_agree. tauto. }
    unfold selected, linux_agreement.
    rewrite (spawned_launchApp _ _ _ _ (detected_linux index_js h Hos)).
    rewrite (spawned_launchApp _ _ _ _ (detected_linux part_000 h Hos)).
    rewrite !detected_linux by exact Hos. rewrite Hos.
    cbn [BROWSERS_linux index_js part_000 filter cmd].
    destruct (whichFinds h "chromium"), (whichFinds h "firefox"),
      (whichFinds h "google-chrome"), (whichFinds h "brave-browser"),
      (whichFinds h "vivaldi"), (whichFinds h "opera");
      (split; split;
       [ intros Hsel; first [discriminate Hsel | tauto]
       | intros Hc; first [reflexivity | exfalso; intuition discriminate]
       | intros Hcmd;
         first [tauto
               | exfalso; simpl in Hcmd; unfold chromiumStyle, quoted in Hcmd;
                 simpl in Hcmd; discriminate Hcmd]
       | intros Hc; first [reflexivity | exfalso; intuition discriminate] ]).
Qed.

(** * Further properties of the script *)

(** ** [which] *)


Lemma trimStart_nonblank (s : string) : blank s = false -> Js.trimStart s <> "".
Proof.
  induction s as [|c s IH]; simpl; [discriminate|].
  destruct (Js.isWhiteSpace c); simpl; [exact IH|discriminate].
Qed.





(** ** [start] *)

(** X2. [start] exits with code 1 exactly when there is no positional
    argument; with at least one it is [launchApp] on the first, whatever
    follows it, and completes normally.  It never ends in an exception. *)
Theorem start_dispatch (T : Tables) (h : Host) :
  (fst (start T h) = Exit 1 <-> skipn 2 (argv h) = []) /\
  (fst (start T h) = Normal tt <-> skipn 2 (argv h) <> []) /\
  (fst (start T h) = Throw -> False) /\
  (forall url rest, skipn 2 (argv h) = url :: rest -> start T h = launchApp T h url) /\
  (forall url rest rest',
     skipn 2 (argv h) = url :: rest ->
     forall h', platform h' = platform h -> existsSync h' = existsSync h ->
       execSync h' = execSync h -> skipn 2 (argv h') = url :: rest' ->
       start T h' = start T h).
Proof.
  assert (Hrun : forall g url rest, skipn 2 (argv g) = url :: rest ->
                                    start T g = launchApp T g url).
  { intros g url rest H. unfold start. rewrite H.
    cbn [length Nat.eqb nth_error]. now rewrite bind_ret. }
  assert (Hnormal : forall url, fst (launchApp T h url) = Normal tt).
  { intros url. rewrite launchApp_run. now destruct (detected T h). }
  destruct (skipn 2 (argv h)) as [|url rest] eqn:Hargs.
  - assert (Hexit : start T h = (Exit 1, [ConsoleError "No URL provided! Usage: npx oxr <url>"])).
    { unfold start. rewrite Hargs. reflexivity. }
    rewrite Hexit. simpl. repeat split; try discriminate; try tauto.
  - rewrite (Hrun h url rest Hargs), Hnormal.
    repeat split; try discriminate; try tauto.
    + intros u r [= <- <-]. reflexivity.
    + intros u r r' [= <- <-] h' Hp He Hx Hargs'.
      rewrite (Hrun h' url r' Hargs').
      rewrite !launchApp_run, !detected_run, Hp.
      unfold passesProbe, whichFinds, which, child_execSync. now rewrite Hp, He, Hx.
Qed.

(** ** URL normalization *)

(** X3. The URL [launchApp] passes on always begins with http, is its
    argument behind one of three fixed prefixes (none, http:// or
    https://), and is left alone exactly when the argument already begins
    with http; so normalizing twice is normalizing once. *)
Theorem normalizeUrl_scheme (url : string) :
  Js.startsWith (normalizeUrl url) "http" = true /\
  (normalizeUrl url = url \/
   normalizeUrl url = "http://" ++ url \/
   normalizeUrl url = "https://" ++ url) /\
  (normalizeUrl url = url <-> Js.startsWith url "http" = true) /\
  normalizeUrl (normalizeUrl url) = normalizeUrl url.
Proof.
  assert (Hhttp : Js.startsWith (normalizeUrl url) "http" = true).
  { unfold normalizeUrl. destruct (Js.startsWith url "http") eqn:E; [exact E|].
    destruct (Js.startsWith url "localhost"); reflexivity. }
  split; [exact Hhttp|]. split; [|split].
  - unfold normalizeUrl.
    destruct (Js.startsWith url "http"); [now left|].
    destruct (Js.startsWith url "localhost"); [right; now left|right; now right].
  - split.
    + intros E. now rewrite E in Hhttp.
    + intros E. unfold normalizeUrl. now rewrite E.
  - unfold normalizeUrl at 1. now rewrite Hhttp.
Qed.

(** ** [launchApp] as a whole *)




(** X5. On a supported platform the trace of [launchApp] is two log
    lines followed by the one spawn: the platform tag, then the names of
    the detected browsers joined by a comma and a space in catalog order
    (not in preference order).  When nothing is detected that line ends
    after its colon and space; the word None is for the platforms
    without a catalog. *)
Theorem launchApp_log_lines (T : Tables) (h : Host) (url : string) :
  supported (platform h) ->
  exists cat c,
    catalog T (platform h) = Some cat /\
    trace (launchApp T h url) =
      [ConsoleLog ("Detected OS: " ++ platform h);
       ConsoleLog ("Detected browsers: "
                     ++ Js.join ", " (map name (filter (passesProbe h) cat)));
       Spawn c] /\
    (filter (passesProbe h) cat = [] ->
     In (ConsoleLog "Detected browsers: ") (trace (launchApp T h url))).
Proof.
  intros Hos. destruct (supported_catalog T _ Hos) as [cat Hcat].
  rewrite launchApp_run, detected_run, Hcat. simpl.
  exists cat. eexists. split; [reflexivity|]. split; [reflexivity|].
  intros ->. simpl. auto.
Qed.

(** X5 on a Linux host with Chrome and Firefox: catalog order in the log. *)
Lemma launchApp_log_lines_linux :
  exists cat c,
    catalog index_js "linux" = Some cat /\
    trace (launchApp index_js (host "linux" [] ["google-chrome"; "firefox"] ["example.com"])
             "example.com") =
      [ConsoleLog "Detected OS: linux";
       ConsoleLog "Detected browsers: Firefox, Chrome";
       Spawn c].
Proof.
  destruct (launchApp_log_lines index_js
              (host "linux" [] ["google-chrome"; "firefox"] ["example.com"]) "example.com")
    as [cat [c [Hcat [Htrace _]]]].
  - right; right; reflexivity.
  - exists cat, c. split; [exact Hcat|].
    rewrite Htrace. injection Hcat as <-. reflexivity.
Defined.

(** ** What detection reads *)

(** X6. Detection reads the platform tag and one probe per descriptor of
    the platform's catalog, and nothing else of the host: two hosts of
    the same platform that agree on the existence of the catalog's
    locators (off Linux) or on the lookups of the catalog's locators (on
    Linux) detect the same browsers, and [launchApp] does the same on
    both.  The PATH plays no part off Linux, the file system none on
    Linux, and the argument vector none at all. *)
Theorem detection_reads_catalog_probes (T : Tables) (h h' : Host) :
  platform h = platform h' ->
  (platform h <> "linux" ->
   forall cat b, catalog T (platform h) = Some cat -> In b cat ->
     existsSync h (cmd b) = existsSync h' (cmd b)) ->
  (platform h = "linux" ->
   forall b, In b (BROWSERS_linux T) ->
     execSync h ("which " ++ cmd b) = execSync h' ("which " ++ cmd b)) ->
  detectBrowsers T h = detectBrowsers T h' /\
  forall url, launchApp T h url = launchApp T h' url.
Proof.
  intros Hp Hfiles Hpath.
  assert (Hfilter : forall cat, catalog T (platform h) = Some cat ->
                      filter (passesProbe h) cat = filter (passesProbe h') cat).
  { intros cat Hcat. apply filter_ext_in. intros b Hb.
    destruct (String.eqb_spec (platform h) "linux") as [El|Enl].
    - rewrite !passesProbe_path by congruence.
      rewrite Hpath; [reflexivity|exact El|].
      unfold catalog in Hcat. rewrite El in Hcat. simpl in Hcat. congruence.
    - rewrite !passesProbe_files by congruence. now apply (Hfiles Enl cat). }
  assert (Hd : detectBrowsers T h = detectBrowsers T h').
  { rewrite !detectBrowsers_run, <- Hp.
    destruct (catalog T (platform h)) as [cat|] eqn:Hcat; [|reflexivity].
    now rewrite (Hfilter cat). }
  split; [exact Hd|]. intros url.
  rewrite !launchApp_run. unfold detected. rewrite <- Hd, <- Hp. reflexivity.
Qed.

(** X6 on two Windows hosts that differ in their PATH, in a path outside
    the catalog and in their arguments. *)
Lemma detection_reads_catalog_probes_windows :
  launchApp index_js
    (host "win32" ["C:\Program Files\Opera\launcher.exe"] [] ["example.com"]) "example.com" =
  launchApp index_js
    (host "win32" ["C:\Program Files\Opera\launcher.exe"; "C:\Windows\notepad.exe"]
          ["firefox"; "chromium"] ["example.com"; "--verbose"]) "example.com".
Proof.
  apply (detection_reads_catalog_probes index_js
           (host "win32" ["C:\Program Files\Opera\launcher.exe"] [] ["example.com"])
           (host "win32" ["C:\Program Files\Opera\launcher.exe"; "C:\Windows\notepad.exe"]
                 ["firefox"; "chromium"] ["example.com"; "--verbose"])).
  - reflexivity.
  - intros _ cat b [= <-] Hb. simpl in Hb.
    repeat (destruct Hb as [<-|Hb]; [reflexivity|]). destruct Hb.
  - intros E. discriminate E.
Defined.

(** ** Detection and selection together *)

(** Case analysis on the value of a test at every descriptor of a
    concrete catalog, after the preference order has been computed. *)
Ltac probe_cases p :=
  repeat match goal with
         | |- context [p ?b] => destruct (p b)
         end.

Ltac by_probe_cases T os p :=
  let l := eval vm_compute in (byPreference T os) in
  change (byPreference T os) with l;
  cbv [BROWSERS_windows BROWSERS_darwin BROWSERS_linux index_js part_000
       windows_catalog darwin_catalog];
  cbn [filter find]; probe_cases p; reflexivity.

Section SelectionByTable.

Variable p : IBrowser -> bool.

Lemma select_index_js_win32 :
  browserToUse index_js "win32" (filter p (BROWSERS_windows index_js)) =
  find p (byPreference index_js "win32").
Proof. by_probe_cases index_js "win32" p. Qed.

Lemma select_index_js_darwin :
  browserToUse index_js "darwin" (filter p (BROWSERS_darwin index_js)) =
  find p (byPreference index_js "darwin").
Proof. by_probe_cases index_js "darwin" p. Qed.

Lemma select_index_js_linux :
  browserToUse index_js "linux" (filter p (BROWSERS_linux index_js)) =
  find p (byPreference index_js "linux").
Proof. by_probe_cases index_js "linux" p. Qed.

Lemma select_part_000_win32 :
  browserToUse part_000 "win32" (filter p (BROWSERS_windows part_000)) =
  find p (byPreference part_000 "win32").
Proof. by_probe_cases part_000 "win32" p. Qed.

Lemma select_part_000_darwin :
  browserToUse part_000 "darwin" (filter p (BROWSERS_darwin part_000)) =
  find p (byPreference part_000 "darwin").
Proof. by_probe_cases part_000 "darwin" p. Qed.

Lemma select_part_000_linux :
  browserToUse part_000 "linux" (filter p (BROWSERS_linux part_000)) =
  find p (byPreference part_000 "linux").
Proof. by_probe_cases part_000 "linux" p. Qed.

End SelectionByTable.

Lemma selected_unsupported (T : Tables) (h : Host) :
  catalog T (platform h) = None ->
  selected T h = find (passesProbe h) (byPreference T (platform h)).
Proof.
  intros H. unfold selected, byPreference. now rewrite detected_run, H.
Qed.

(** X7. With the tables of either copy, the browser [launchApp] selects
    on a host is the first descriptor, in the order of the platform's
    preference list, whose probe passes: detection order and the fallback
    to the first detected browser have no effect, and no browser is
    selected exactly when no probe passes.  On Linux the compiled program
    tries chromium, firefox, brave-browser, google-chrome, vivaldi and
    opera in that order, its source chromium, google-chrome, firefox,
    brave-browser, vivaldi and opera. *)
Theorem selected_first_preferred (h : Host) :
  selected index_js h = find (passesProbe h) (byPreference index_js (platform h)) /\
  selected part_000 h = find (passesProbe h) (byPreference part_000 (platform h)) /\
  map cmd (byPreference index_js "linux") =
    ["chromium"; "firefox"; "brave-browser"; "google-chrome"; "vivaldi"; "opera"] /\
  map cmd (byPreference part_000 "linux") =
    ["chromium"; "google-chrome"; "firefox"; "brave-browser"; "vivaldi"; "opera"].
Proof.
  assert (Hsup : forall T os cat, catalog T os = Some cat ->
            browserToUse T os (filter (passesProbe h) cat) =
              find (passesProbe h) (byPreference T os) ->
            platform h = os ->
            selected T h = find (passesProbe h) (byPreference T os)).
  { intros T os cat Hcat Hsel <-. unfold selected. now rewrite detected_run, Hcat. }
  split; [|split; [|split; reflexivity]].
  - destruct (catalog index_js (platform h)) as [cat|] eqn:Hcat;
      [|now apply selected_unsupported].
    destruct (catalog_supported _ _ _ Hcat) as [E|[E|E]]; rewrite E.
    + apply (Hsup index_js "win32" (BROWSERS_windows index_js) eq_refl (select_index_js_win32 _) E).
    + apply (Hsup index_js "darwin" (BROWSERS_darwin index_js) eq_refl (select_index_js_darwin _) E).
    + apply (Hsup index_js "linux" (BROWSERS_linux index_js) eq_refl (select_index_js_linux _) E).
  - destruct (catalog part_000 (platform h)) as [cat|] eqn:Hcat;
      [|now apply selected_unsupported].
    destruct (catalog_supported _ _ _ Hcat) as [E|[E|E]]; rewrite E.
    + apply (Hsup part_000 "win32" (BROWSERS_windows part_000) eq_refl (select_part_000_win32 _) E).
    + apply (Hsup part_000 "darwin" (BROWSERS_darwin part_000) eq_refl (select_part_000_darwin _) E).
    + apply (Hsup part_000 "linux" (BROWSERS_linux part_000) eq_refl (select_part_000_linux _) E).
Qed.

(** ** Command lines on the other platforms *)

Lemma macChromiumStyle_shape (locator url : string) :
  macChromiumStyle locator url =
  ("open -na " ++ quoted locator ++ " --args --app=" ++ dquote) ++ url ++
  String dquote_char (" --new-window --user-data-dir=" ++ quoted "/tmp/temp-profile").
Proof.
  unfold macChromiumStyle, quoted. rewrite !append_assoc. reflexivity.
Qed.

(** X8. On macOS the selected browser is opened through [open -na] on
    its bundle.  Firefox gets the URL and the flags --width=960
    --height=800; every other browser gets --args with --app= on the
    quoted URL and the user-data-dir flag, and no size at all: neither
    --window-size nor --width occurs in its command unless the URL has
    it. *)
Theorem darwin_command_shape (h : Host) (url : string) (b : IBrowser) :
  platform h = "darwin" -> selected index_js h = Some b ->
  (name b = "Firefox" ->
     spawned (trace (launchApp index_js h url)) =
       [macFirefoxStyle "/Applications/Firefox.app" (normalizeUrl url)] /\
     Js.includes (macFirefoxStyle "/Applications/Firefox.app" (normalizeUrl url))
       "--width=960 --height=800" = true) /\
  (name b <> "Firefox" ->
     spawned (trace (launchApp index_js h url)) =
       [macChromiumStyle (cmd b) (normalizeUrl url)] /\
     Js.includes (macChromiumStyle (cmd b) (normalizeUrl url))
       ("--args --app=" ++ quoted (normalizeUrl url)) = true /\
     Js.includes (macChromiumStyle (cmd b) (normalizeUrl url))
       ("--user-data-dir=" ++ quoted "/tmp/temp-profile") = true /\
     (Js.includes (normalizeUrl url) "--window-size" = false ->
      Js.includes (macChromiumStyle (cmd b) (normalizeUrl url)) "--window-size" = false) /\
     (Js.includes (normalizeUrl url) "--width" = false ->
      Js.includes (macChromiumStyle (cmd b) (normalizeUrl url)) "--width" = false)).
Proof.
  intros Hos Hsel.
  destruct (selected_in_catalog _ _ _ Hsel) as [cat [ds [Hcat [Hd [Hb [Hin _]]]]]].
  rewrite Hos in Hcat, Hb. injection Hcat as <-.
  pose proof (spawned_launchApp index_js h url ds Hd) as Hrun.
  rewrite Hos, Hb in Hrun. rewrite Hrun. clear Hrun Hsel Hb Hd.
  split.
  - intros Hname.
    assert (Hff : b = mkBrowser "Firefox" "/Applications/Firefox.app").
    { simpl in Hin.
      repeat (destruct Hin as [<-|Hin]; [first [reflexivity|discriminate Hname]|]).
      destruct Hin. }
    subst b. split; [reflexivity|].
    apply includes_iff.
    exists ("open -na " ++ quoted "/Applications/Firefox.app" ++ " "
              ++ quoted (normalizeUrl url) ++ " "), "".
    unfold macFirefoxStyle. rewrite !append_assoc. reflexivity.
  - intros Hname. split; [|split; [|split; [|split]]].
    + simpl in Hin.
      repeat (destruct Hin as [<-|Hin]; [first [reflexivity|now contradiction Hname]|]).
      destruct Hin.
    + apply includes_iff.
      exists ("open -na " ++ quoted (cmd b) ++ " "),
        (" --new-window --user-data-dir=" ++ quoted "/tmp/temp-profile").
      unfold macChromiumStyle. rewrite !append_assoc. reflexivity.
    + apply includes_iff.
      exists ("open -na " ++ quoted (cmd b) ++ " --args --app=" ++ quoted (normalizeUrl url)
                ++ " --new-window "), "".
      unfold macChromiumStyle. rewrite !append_assoc. reflexivity.
    + intros Hurl. rewrite macChromiumStyle_shape. simpl in Hin.
      repeat (destruct Hin as [<-|Hin];
              [simpl; rewrite includes_app_sep by reflexivity; rewrite Hurl; reflexivity|]).
      destruct Hin.
    + intros Hurl. rewrite macChromiumStyle_shape. simpl in Hin.
      repeat (destruct Hin as [<-|Hin];
              [simpl; rewrite includes_app_sep by reflexivity; rewrite Hurl; reflexivity|]).
      destruct Hin.
Qed.

(** X8 on a Mac with Safari and Firefox installed: Safari is selected. *)
Lemma darwin_command_shape_safari :
  spawned (trace (launchApp index_js
                    (host "darwin" ["/Applications/Firefox.app"; "/Applications/Safari.app"] []
                          ["localhost:3000"])
                    "localhost:3000")) =
    [macChromiumStyle "/Applications/Safari.app" "http://localhost:3000"].
Proof.
  apply (darwin_command_shape
           (host "darwin" ["/Applications/Firefox.app"; "/Applications/Safari.app"] []
                 ["localhost:3000"])
           "localhost:3000" (mkBrowser "Safari" "/Applications/Safari.app"));
    [reflexivity|reflexivity|discriminate].
Defined.

(** X9. On Linux no browser of the catalog gets the width-and-height
    command, in either copy: every Linux locator is in lower case, so the
    test for the text Firefox fails on all of them and whichever browser
    is selected is started in the Chromium style. *)
Theorem linux_always_chromium_style (h : Host) (url : string) :
  platform h = "linux" ->
  (forall b, selected index_js h = Some b ->
     Js.includes (cmd b) "Firefox" = false /\
     spawned (trace (launchApp index_js h url)) = [chromiumStyle (cmd b) (normalizeUrl url)]) /\
  (forall b, selected part_000 h = Some b ->
     Js.includes (cmd b) "Firefox" = false /\
     spawned (trace (launchApp part_000 h url)) = [chromiumStyle (cmd b) (normalizeUrl url)]).
Proof.
  intros Hos.
  assert (H : forall T, T = index_js \/ T = part_000 ->
            forall b, selected T h = Some b ->
              Js.includes (cmd b) "Firefox" = false /\
              spawned (trace (launchApp T h url)) = [chromiumStyle (cmd b) (normalizeUrl url)]).
  { intros T HT b Hsel.
    destruct (selected_in_catalog _ _ _ Hsel) as [cat [ds [Hcat [Hd [Hb [Hin _]]]]]].
    rewrite Hos in Hcat, Hb. rewrite (spawned_launchApp _ _ _ _ Hd), Hos, Hb.
    destruct HT as [-> | ->]; injection Hcat as <-; simpl in Hin;
      repeat (destruct Hin as [<-|Hin]; [split; reflexivity|]); destruct Hin. }
  split; apply H; [now left|now right].
Qed.

(** X9 on a Linux host where only firefox resolves, for the source. *)
Lemma linux_always_chromium_style_source :
  spawned (trace (launchApp part_000 (host "linux" [] ["firefox"] ["example.com"])
                    "example.com")) =
    [chromiumStyle "firefox" "https://example.com"].
Proof.
  exact (proj2 (proj2 (linux_always_chromium_style
                         (host "linux" [] ["firefox"] ["example.com"]) "example.com" eq_refl)
                  (mkBrowser "Firefox" "firefox") eq_refl)).
Defined.

(** ** The URL in the command *)

(** X10. On a given host every command [launchApp] spawns is one fixed
    text, the normalized URL between double quotes, and another fixed
    text: the URL is inserted as it is, with nothing escaped, and nothing
    else of the command depends on it. *)
Theorem command_frames_url (T : Tables) (h : Host) :
  supported (platform h) ->
  exists before after,
    forall url,
      spawned (trace (launchApp T h url)) = [before ++ quoted (normalizeUrl url) ++ after] /\
      Js.includes (before ++ quoted (normalizeUrl url) ++ after)
        (quoted (normalizeUrl url)) = true.
Proof.
  intros Hos. destruct (supported_catalog T _ Hos) as [cat Hcat].
  assert (Hd : detected T h = Some (filter (passesProbe h) cat)).
  { now rewrite detected_run, Hcat. }
  assert (Hframe : exists before after, forall url,
            match browserToUse T (platform h) (filter (passesProbe h) cat) with
            | Some b => browserCommand (platform h) b (normalizeUrl url)
            | None => defaultCommand (platform h) (normalizeUrl url)
            end = before ++ quoted (normalizeUrl url) ++ after).
  { destruct (browserToUse T (platform h) (filter (passesProbe h) cat)) as [b|].
    - unfold browserCommand.
      destruct (platform h =? "darwin"), (Js.includes (cmd b) "Firefox").
      + exists ("open -na " ++ quoted (cmd b) ++ " "), " --width=960 --height=800".
        intros url. unfold macFirefoxStyle. now rewrite !append_assoc.
      + exists ("open -na " ++ quoted (cmd b) ++ " --args --app="),
          (" --new-window --user-data-dir=" ++ quoted "/tmp/temp-profile").
        intros url. unfold macChromiumStyle. now rewrite !append_assoc.
      + exists (quoted (cmd b) ++ " "), " --width=960 --height=800".
        intros url. unfold firefoxStyle. now rewrite !append_assoc.
      + exists (quoted (cmd b) ++ " --app="),
          (" --window-size=960,800 --new-window --user-data-dir=" ++ quoted "/tmp/temp-profile").
        intros url. unfold chromiumStyle. now rewrite !append_assoc.
    - unfold defaultCommand.
      destruct (platform h =? "win32"); [|destruct (platform h =? "darwin")].
      + exists ("start " ++ quoted "" ++ " "), "". intros url.
        rewrite !append_assoc. simpl. now rewrite append_assoc.
      + exists "open ", "". intros url. simpl. now rewrite append_assoc.
      + exists "xdg-open ", "". intros url. simpl. now rewrite append_assoc. }
  destruct Hframe as [before [after Hframe]].
  exists before, after. intros url.
  rewrite (spawned_launchApp _ _ _ _ Hd), Hframe.
  split; [reflexivity|]. apply includes_iff. now exists before, after.
Qed.

(** X10 on a Windows host where only Edge is installed. *)
Lemma command_frames_url_edge :
  exists before after,
    forall url,
      spawned (trace (launchApp index_js
        (host "win32" ["C:\Program Files (x86)\Microsoft\Edge\Application\msedge.exe"] []
              ["example.com"]) url)) = [before ++ quoted (normalizeUrl url) ++ after].
Proof.
  destruct (command_frames_url index_js
    (host "win32" ["C:\Program Files (x86)\Microsoft\Edge\Application\msedge.exe"] []
          ["example.com"])) as [before [after H]].
  - left; reflexivity.
  - exists before, after. intros url. apply H.
Defined.

(** ** The TypeScript source and the detector's other exit *)

(** X11 on Linux with the source's tables: of Chrome and Firefox the
    source selects Chrome, in either detection order. *)
Lemma preference_precedence_source_linux :
  exists s i,
    browserToUse part_000 "linux"
      [mkBrowser "Firefox" "firefox"; mkBrowser "Chrome" "google-chrome"] = Some s /\
    In s [mkBrowser "Firefox" "firefox"; mkBrowser "Chrome" "google-chrome"] /\
    indexOf (name s) (browsersForOS part_000 "linux") = Some i /\ i <= 1 /\
    name s <> "Firefox".
Proof.
  apply (preference_precedence_source "linux"
           [mkBrowser "Firefox" "firefox"; mkBrowser "Chrome" "google-chrome"]
           (mkBrowser "Chrome" "google-chrome") (mkBrowser "Firefox" "firefox") 1 2);
    simpl; auto.
Defined.

